(** * The welcome-email feedback graph of [email_feedback.py]

    A shallow embedding of the two graph nodes [WriteEmail] and [Feedback],
    of the entry function [generate_email] and of the module-level key lookup,
    with the properties of the feedback loop stated over it.

    Conventions.
    - A Python [str] is a [string]; each character stands for one code point
      below 256.  Every literal of the source is plain ASCII.
    - The two language-model agents and [format_as_xml] are external: they
      are the fields of the class [Services], functions over an abstract
      backend state.
    - Exceptions are the left summand of a result; the diagnostics written
      with [print] are not part of the model. *)

From Stdlib Require Import Ascii String ZArith DecimalString DecimalZ.
From stdpp Require Import base option list strings gmap.

Local Open Scope string_scope.

(** ** Python strings *)

Module Str.

(** The newline character of the source's ["\n"]. *)
Definition nl : string := String "010"%char "".

(** [bool(s)] for a [str]: only the empty string is falsy. *)
Definition truthy (s : string) : bool :=
  match s with
  | EmptyString => false
  | String _ _ => true
  end.

(** [c.isspace()] on the code points below 256: tab to carriage return,
    the four separators 0x1c..0x1f, the space, NEL and the no-break space. *)
Definition isspace (c : ascii) : bool :=
  let n := nat_of_ascii c in
  (Nat.leb 9 n && Nat.leb n 13) || (Nat.leb 28 n && Nat.leb n 32)
  || Nat.eqb n 133 || Nat.eqb n 160.

(** [s.lstrip()] *)
Fixpoint lstrip (s : string) : string :=
  match s with
  | EmptyString => EmptyString
  | String c s' => if isspace c then lstrip s' else s
  end.

(** [s.rstrip()] *)
Fixpoint rstrip (s : string) : string :=
  match s with
  | EmptyString => EmptyString
  | String c s' =>
      match rstrip s' with
      | EmptyString => if isspace c then EmptyString else String c EmptyString
      | r => String c r
      end
  end.

(** [s.strip()] *)
Definition strip (s : string) : string := rstrip (lstrip s).

(** [s.split(sep)] for a one-character separator: the pieces between the
    separators, empty pieces included; never the empty list. *)
Fixpoint split (sep : ascii) (s : string) : list string :=
  match s with
  | EmptyString => [EmptyString]
  | String c s' =>
      if Ascii.eqb c sep then EmptyString :: split sep s'
      else match split sep s' with
           | piece :: pieces => String c piece :: pieces
           | [] => [String c EmptyString]
           end
  end.

(** [sep.join(pieces)] *)
Fixpoint join (sep : ascii) (pieces : list string) : string :=
  match pieces with
  | [] => EmptyString
  | [p] => p
  | p :: ps => p +:+ String sep (join sep ps)
  end.

(** The first and the last character of a string, when it has one. *)
Definition first (s : string) : option ascii :=
  match s with
  | EmptyString => None
  | String c _ => Some c
  end.

Fixpoint last (s : string) : option ascii :=
  match s with
  | EmptyString => None
  | String c EmptyString => Some c
  | String _ s' => last s'
  end.

(** [c in s] for a character. *)
Fixpoint mem (c : ascii) (s : string) : bool :=
  match s with
  | EmptyString => false
  | String d s' => Ascii.eqb d c || mem c s'
  end.

(** [needle in hay] for strings. *)
Definition contains (needle hay : string) : bool :=
  match String.index 0 needle hay with
  | Some _ => true
  | None => false
  end.

(** [s] consists of whitespace only. *)
Fixpoint all_space (s : string) : bool :=
  match s with
  | EmptyString => true
  | String c s' => isspace c && all_space s'
  end.

(** [t] is [s] without its leading and trailing whitespace: [s] is [t]
    between two runs of whitespace, and [t] neither starts nor ends with a
    whitespace character. *)
Definition trimmed_of (s t : string) : Prop :=
  (exists l r, s = l +:+ t +:+ r /\ all_space l = true /\ all_space r = true)
  /\ (forall c, first t = Some c -> isspace c = false)
  /\ (forall c, last t = Some c -> isspace c = false).

End Str.

(** ** Data models *)

Record User := mkUser {
  name : string;
  email : string;
  interests : list string
}.

Record Email := mkEmail {
  subject : string;
  body : string
}.

(** The result type of the feedback agent, [EmailRequiresWrite | Email0k]. *)
Inductive FeedbackData :=
| EmailRequiresWrite (feedback : string)
| Email0k.

(** The comprehension of [generate_email]:
    [[interest.strip() for interest in interests.split(",") if interest.strip()]]. *)
Definition parse_interests (interests : string) : list string :=
  flat_map
    (fun interest =>
       if Str.truthy (Str.strip interest) then [Str.strip interest] else [])
    (Str.split ","%char interests).

(** The spec's wording of the same parse: cut at the commas, trim every
    element, then drop the elements that are empty. *)
Definition parse_interests_spec (interests : string) : list string :=
  List.filter (fun x => negb (String.eqb x ""))
    (List.map Str.strip (Str.split ","%char interests)).


(** ** What the program takes from outside *)

(** The kinds of failure the specification names.  The source defines no
    exception class of its own and has no [raise] and no [try]: every
    exception of a run comes out of an agent call. *)
Inductive Exn :=
| ConfigurationError (detail : string)
| GenerationFailure (detail : string)
| ValidationError (detail : string).

(** What [Agent.run] returns: [result.data] and [result.all_messages()]. *)
Record RunResult (Msg D : Type) := mkRunResult {
  data : D;
  all_messages : list Msg
}.
Arguments mkRunResult {Msg D} _ _.
Arguments data {Msg D} _.
Arguments all_messages {Msg D} _.

(** The two values the source hands to [format_as_xml]: the user alone
    ([WriteEmail.run]) and the dict [{"user": ..., "email": ...}]
    ([Feedback.run]). *)
Inductive XmlArg :=
| XmlUser (u : User)
| XmlUserEmail (u : User) (e : Email).

(** The third-party parts: the message records of pydantic_ai, the state of
    the text-generation service, the XML rendering, and one function per
    agent for [await agent.run(prompt)], which either raises or returns a
    result and leaves the service in a new state. *)
Class Services := {
  ModelMessage : Type;
  Backend : Type;
  format_as_xml : XmlArg -> string;
  email_writer_agent_run :
    string -> Backend -> (Exn + RunResult ModelMessage Email) * Backend;
  feedback_agent_run :
    string -> Backend -> (Exn + RunResult ModelMessage FeedbackData) * Backend
}.

(** ** The graph state and the monad of a node *)

Record State `{Services} := mkState {
  user : User;
  write_agent_messages : list ModelMessage
}.
Arguments mkState {_} _ _.

(** The calls made to the backend, oldest first (a log kept by the model). *)
Inductive Call :=
| WriterCall (prompt : string)
| FeedbackCall (prompt : string).

(** How many draft calls and how many critique calls a log holds. *)
Definition draft_calls (log : list Call) : nat :=
  length (List.filter (fun c => match c with WriterCall _ => true | _ => false end) log).

Definition critique_calls (log : list Call) : nat :=
  length (List.filter (fun c => match c with FeedbackCall _ => true | _ => false end) log).

Record World `{Services} := mkWorld {
  state : State;
  backend : Backend;
  calls : list Call
}.
Arguments mkWorld {_} _ _ _.

(** A node body: it reads and writes the world, and returns or raises. *)
Definition M `{Services} (A : Type) : Type := World -> (Exn + A) * World.

Definition ret `{Services} {A : Type} (a : A) : M A := fun w => (inr a, w).

Definition bind `{Services} {A B : Type} (m : M A) (k : A -> M B) : M B :=
  fun w =>
    match m w with
    | (inl e, w') => (inl e, w')
    | (inr a, w') => k a w'
    end.

Notation "x <- m ;; k" := (bind m (fun x => k))
  (at level 100, m at next level, right associativity).

(** [ctx.state] *)
Definition get_state `{Services} : M State := fun w => (inr (state w), w).

(** [ctx.state.write_agent_messages = msgs] *)
Definition set_write_agent_messages `{Services} (msgs : list ModelMessage)
  : M unit :=
  fun w =>
    (inr tt, mkWorld (mkState (user (state w)) msgs) (backend w) (calls w)).

(** [await email_writer_agent.run(prompt)] *)
Definition await_email_writer_agent `{Services} (prompt : string)
  : M (RunResult ModelMessage Email) :=
  fun w =>
    let '(r, b) := email_writer_agent_run prompt (backend w) in
    (r, mkWorld (state w) b (calls w ++ [WriterCall prompt])).

(** [await feedback_agent.run(prompt)] *)
Definition await_feedback_agent `{Services} (prompt : string)
  : M (RunResult ModelMessage FeedbackData) :=
  fun w =>
    let '(r, b) := feedback_agent_run prompt (backend w) in
    (r, mkWorld (state w) b (calls w ++ [FeedbackCall prompt])).

(** ** The graph nodes *)

Inductive Node :=
| WriteEmail (email_feedback : option string)
| Feedback (email : Email).

(** What a node's [run] returns: the next node, or [End(data)]. *)
Inductive Next :=
| NextNode (node : Node)
| End (data : Email).

(** [bool(x)] for [x : str | None]. *)
Definition truthy (x : option string) : bool :=
  match x with
  | Some s => Str.truthy s
  | None => false
  end.

(** [f"{x}"] for [x : str | None]. *)
Definition fmt (x : option string) : string :=
  match x with
  | Some s => s
  | None => "None"
  end.

(** The triple-quoted literal of [WriteEmail.run], indentation included. *)
Definition user_xml : string :=
  Str.nl +:+ "            <examples>"
  +:+ Str.nl +:+ "                <name>John Doe</name>"
  +:+ Str.nl +:+ "                <email>john.joe@example.com</email>"
  +:+ Str.nl +:+ "            </examples>"
  +:+ Str.nl +:+ "            ".

(** The prompt built by [WriteEmail.run] (lines 84 to 102). *)
Definition WriteEmail_prompt `{Services}
    (email_feedback : option string) (u : User) : string :=
  if truthy email_feedback then
    "Rewrite the email for the user:" +:+ Str.nl
    +:+ format_as_xml (XmlUser u) +:+ Str.nl
    +:+ "Feedback: " +:+ fmt email_feedback
  else
    "Write a welcome email for the user:" +:+ Str.nl +:+ user_xml.

(** [WriteEmail.run] *)
Definition WriteEmail_run `{Services} (email_feedback : option string)
  : M Node :=
  st <- get_state ;;
  let prompt := WriteEmail_prompt email_feedback (user st) in
  result <- await_email_writer_agent prompt ;;
  _ <- set_write_agent_messages (all_messages result) ;;
  ret (Feedback (data result)).

(** The prompt built by [Feedback.run] (line 126). *)
Definition Feedback_prompt `{Services} (u : User) (email : Email) : string :=
  format_as_xml (XmlUserEmail u email).

(** [Feedback.run] *)
Definition Feedback_run `{Services} (email : Email) : M Next :=
  st <- get_state ;;
  let prompt := Feedback_prompt (user st) email in
  result <- await_feedback_agent prompt ;;
  match data result with
  | EmailRequiresWrite feedback => ret (NextNode (WriteEmail (Some feedback)))
  | Email0k => ret (End email)
  end.

(** The two ways out of [Feedback.run], as a function of the result data. *)
Definition verdict_next (email : Email) (v : FeedbackData) : Next :=
  match v with
  | EmailRequiresWrite feedback => NextNode (WriteEmail (Some feedback))
  | Email0k => End email
  end.

(** [node.run(ctx)], by the class of the node. *)
Definition Node_run `{Services} (node : Node) : M Next :=
  match node with
  | WriteEmail email_feedback =>
      next <- WriteEmail_run email_feedback ;; ret (NextNode next)
  | Feedback email => Feedback_run email
  end.

(** ** The graph run *)

(** The entries of the history that [run_sync] returns beside the result:
    one per node run, and a last one for the end. *)
Inductive HistoryStep :=
| NodeStep (node : Node)
| EndStep (result : Email).

Inductive Status :=
| Running (node : Node)
| Finished (data : Email)
| Failed (e : Exn).

Record Run `{Services} := mkRun {
  status : Status;
  world : World;
  history : list HistoryStep
}.
Arguments mkRun {_} _ _ _.

(** Modelled from the spec: [Graph.next] of the third-party pydantic_graph,
    which is not part of the sources.  One transition of section 4.3: the
    current node is recorded and run; it yields the next node, ends the graph
    with a document, or fails, and a failure is not caught.  A run that has
    ended or failed makes no further transition. *)
Definition Graph_next `{Services} (r : Run) : Run :=
  match status r with
  | Running node =>
      match Node_run node (world r) with
      | (inl e, w) => mkRun (Failed e) w (history r ++ [NodeStep node])
      | (inr (NextNode n), w) =>
          mkRun (Running n) w (history r ++ [NodeStep node])
      | (inr (End d), w) =>
          mkRun (Finished d) w (history r ++ [NodeStep node; EndStep d])
      end
  | Finished _ | Failed _ => r
  end.

(** [fuel] transitions in a row. *)
Fixpoint Graph_iter `{Services} (fuel : nat) (r : Run) : Run :=
  match fuel with
  | O => r
  | S fuel' => Graph_iter fuel' (Graph_next r)
  end.

(** The run as it stands before the first transition. *)
Definition Graph_start `{Services}
    (start_node : Node) (st : State) (b : Backend) : Run :=
  mkRun (Running start_node) (mkWorld st b []) [].

(** The graph of [generate_email] after [k] transitions: it starts at
    [WriteEmail()] with no call made yet. *)
Definition run_after `{Services} (k : nat) (st : State) (b : Backend) : Run :=
  Graph_iter k (Graph_start (WriteEmail None) st b).

(** What the caller of [run_sync] gets: [None] while the loop has not ended
    within the fuel, else the exception or the pair of result and history. *)
Definition outcome `{Services} (r : Run)
  : option (Exn + Email * list HistoryStep) :=
  match status r with
  | Running _ => None
  | Finished d => Some (inr (d, history r))
  | Failed e => Some (inl e)
  end.

(** Modelled from the spec: [Graph.run_sync] of pydantic_graph, the loop of
    section 4.3 that repeats the transition until the graph ends. *)
Definition Graph_run_sync `{Services}
    (fuel : nat) (start_node : Node) (st : State) (b : Backend)
  : option (Exn + Email * list HistoryStep) * World :=
  let r := Graph_iter fuel (Graph_start start_node st b) in
  (outcome r, world r).

(** ** The entry function *)

(** [generate_email] *)
Definition generate_email `{Services}
    (fuel : nat) (name email interests : string) (b : Backend)
  : option (Exn + string) * World :=
  let interests_list := parse_interests interests in
  let user_obj := mkUser name email interests_list in
  let state_obj := mkState user_obj [] in
  match Graph_run_sync fuel (WriteEmail None) state_obj b with
  | (Some (inr (final_email, _)), w) =>
      (Some (inr ("Subject: " +:+ subject final_email
                  +:+ Str.nl +:+ Str.nl +:+ body final_email)), w)
  | (Some (inl e), w) => (Some (inl e), w)
  | (None, w) => (None, w)
  end.

(** ** Module start-up *)

(** [os.getenv(key, default)] over the process environment. *)
Definition os_getenv (environ : gmap string string) (key dflt : string)
  : string :=
  default dflt (environ !! key).

(** [openai_api_key = os.getenv("OPENAI_API_KEY", "your-api-key-here")] *)
Definition openai_api_key (environ : gmap string string) : string :=
  os_getenv environ "OPENAI_API_KEY" "your-api-key-here".

(** [OpenAIModel(model_name, api_key=...)], as the source configures it. *)
Record OpenAIModel := mkOpenAIModel {
  model_name : string;
  api_key : string
}.

(** The two model objects made when the module is loaded. *)
Record Models := mkModels {
  email_writer_model : OpenAIModel;
  feedback_model : OpenAIModel
}.

(** Lines 46 to 56: the key is looked up and handed to both models.  The
    module has no check and no [raise] on this path, so loading returns. *)
Definition module_init (environ : gmap string string) : Exn + Models :=
  inr (mkModels (mkOpenAIModel "gpt-3.5-turbo" (openai_api_key environ))
                (mkOpenAIModel "gpt-3.5-turbo" (openai_api_key environ))).

(** ** A scripted backend

    A concrete instance of [Services] for running the model: the backend
    state is the list of replies still to come, a message is a string, and
    each agent call consumes the next reply when it is of its kind. *)

Inductive Reply :=
| WriterReply (r : Exn + RunResult string Email)
| FeedbackReply (r : Exn + RunResult string FeedbackData).

Definition scripted_writer (prompt : string) (script : list Reply)
  : (Exn + RunResult string Email) * list Reply :=
  match script with
  | WriterReply r :: rest => (r, rest)
  | _ => (inl (GenerationFailure "no reply scripted for the writer"), script)
  end.

Definition scripted_feedback (prompt : string) (script : list Reply)
  : (Exn + RunResult string FeedbackData) * list Reply :=
  match script with
  | FeedbackReply r :: rest => (r, rest)
  | _ => (inl (GenerationFailure "no reply scripted for the feedback"), script)
  end.

(** A plain tagged rendering standing in for [format_as_xml]. *)
Definition tag (t body : string) : string :=
  "<" +:+ t +:+ ">" +:+ body +:+ "</" +:+ t +:+ ">".

Definition render_user (u : User) : string :=
  tag "name" (name u) +:+ tag "email" (email u)
  +:+ String.concat "" (List.map (tag "interests") (interests u)).

Definition render (x : XmlArg) : string :=
  match x with
  | XmlUser u => render_user u
  | XmlUserEmail u e =>
      tag "user" (render_user u)
      +:+ tag "email" (tag "subject" (subject e) +:+ tag "body" (body e))
  end.

Definition scripted : Services := {|
  ModelMessage := string;
  Backend := list Reply;
  format_as_xml := render;
  email_writer_agent_run := scripted_writer;
  feedback_agent_run := scripted_feedback
|}.

(** The user of scenario A. *)
Definition jane : User :=
  mkUser "Jane Doe" "jane@example.com" ["chess"; "gardening"].

Definition draft1 : Email := mkEmail "Welcome to ABC" "Hello, welcome aboard.".
Definition draft2 : Email :=
  mkEmail "Welcome to ABC, Jane" "Hello Jane, our gardening club awaits.".

Definition writer_ok (e : Email) (exchange : list string) : Reply :=
  WriterReply (inr (mkRunResult e exchange)).
Definition approve : Reply := FeedbackReply (inr (mkRunResult Email0k [])).
Definition revise (fb : string) : Reply :=
  FeedbackReply (inr (mkRunResult (EmailRequiresWrite fb) [])).

(** Scenario A: the first draft is approved. *)
Definition script_A : list Reply := [writer_ok draft1 ["exchange 1"]; approve].

(** Scenario B: one revision, then approval. *)
Definition script_B : list Reply :=
  [writer_ok draft1 ["exchange 1"]; revise "mention gardening";
   writer_ok draft2 ["exchange 2"]; approve].

(** Scenario C: the first draft call fails. *)
Definition script_C : list Reply :=
  [WriterReply (inl (GenerationFailure "malformed output")); approve].


(** A revision is asked for and the second draft call fails. *)
Definition script_late_failure : list Reply :=
  [writer_ok draft1 ["exchange 1"]; revise "mention gardening";
   WriterReply (inl (GenerationFailure "quota exceeded")); approve].

(** The run of scenario B after [k] transitions. *)
Definition run_B (k : nat) : @Run scripted :=
  @run_after scripted k (@mkState scripted jane []) script_B.

(** ** The transitions of a run, as a relation *)

(** The seven ways one call of [Graph_next] can go: a draft call that
    succeeds or fails, a critique call that asks for a revision, approves or
    fails, and the two halted runs, which stay. *)
Inductive Transition `{Services} : Run -> Run -> Prop :=
| T_draft fb w h res b' :
    email_writer_agent_run (WriteEmail_prompt fb (user (state w))) (backend w)
      = (inr res, b') ->
    Transition (mkRun (Running (WriteEmail fb)) w h)
      (mkRun (Running (Feedback (data res)))
         (mkWorld (mkState (user (state w)) (all_messages res)) b'
            (calls w ++ [WriterCall (WriteEmail_prompt fb (user (state w)))]))
         (h ++ [NodeStep (WriteEmail fb)]))
| T_draft_fails fb w h e b' :
    email_writer_agent_run (WriteEmail_prompt fb (user (state w))) (backend w)
      = (inl e, b') ->
    Transition (mkRun (Running (WriteEmail fb)) w h)
      (mkRun (Failed e)
         (mkWorld (state w) b'
            (calls w ++ [WriterCall (WriteEmail_prompt fb (user (state w)))]))
         (h ++ [NodeStep (WriteEmail fb)]))
| T_revise doc w h v b' fb :
    feedback_agent_run (Feedback_prompt (user (state w)) doc) (backend w)
      = (inr v, b') ->
    data v = EmailRequiresWrite fb ->
    Transition (mkRun (Running (Feedback doc)) w h)
      (mkRun (Running (WriteEmail (Some fb)))
         (mkWorld (state w) b'
            (calls w ++ [FeedbackCall (Feedback_prompt (user (state w)) doc)]))
         (h ++ [NodeStep (Feedback doc)]))
| T_approve doc w h v b' :
    feedback_agent_run (Feedback_prompt (user (state w)) doc) (backend w)
      = (inr v, b') ->
    data v = Email0k ->
    Transition (mkRun (Running (Feedback doc)) w h)
      (mkRun (Finished doc)
         (mkWorld (state w) b'
            (calls w ++ [FeedbackCall (Feedback_prompt (user (state w)) doc)]))
         (h ++ [NodeStep (Feedback doc); EndStep doc]))
| T_critique_fails doc w h e b' :
    feedback_agent_run (Feedback_prompt (user (state w)) doc) (backend w)
      = (inl e, b') ->
    Transition (mkRun (Running (Feedback doc)) w h)
      (mkRun (Failed e)
         (mkWorld (state w) b'
            (calls w ++ [FeedbackCall (Feedback_prompt (user (state w)) doc)]))
         (h ++ [NodeStep (Feedback doc)]))
| T_finished doc w h :
    Transition (mkRun (Finished doc) w h) (mkRun (Finished doc) w h)
| T_failed e w h :
    Transition (mkRun (Failed e) w h) (mkRun (Failed e) w h).

(** ** What holds along a run *)

(** The node entries of a history. *)
Definition node_steps (h : list HistoryStep) : nat :=
  length (List.filter
            (fun x => match x with NodeStep _ => true | EndStep _ => false end) h).

(** The log takes draft calls and critique calls in turn; [expect_draft]
    says which kind comes first. *)
Fixpoint alternating (expect_draft : bool) (log : list Call) : bool :=
  match log with
  | [] => true
  | WriterCall _ :: rest => expect_draft && alternating false rest
  | FeedbackCall _ :: rest => negb expect_draft && alternating true rest
  end.





(** The order of the calls, by the point the run has come to. *)
Definition order_inv `{Services} (r : Run) : Prop :=
  alternating true (calls (world r)) = true
  /\ match status r with
     | Running (WriteEmail _) => Nat.even (length (calls (world r))) = true
     | Running (Feedback _) => Nat.even (length (calls (world r))) = false
     | Finished _ =>
         Nat.even (length (calls (world r))) = true
         /\ 2 <= length (calls (world r))
     | Failed _ => 1 <= length (calls (world r))
     end.


(** A backend whose writer always answers and whose critic always asks for
    another revision; its state counts the calls. *)
Definition never_satisfied : Services := {|
  ModelMessage := string;
  Backend := nat;
  format_as_xml := render;
  email_writer_agent_run :=
    fun _ n => (inr (mkRunResult draft1 ["exchange"]), S n);
  feedback_agent_run :=
    fun _ n => (inr (mkRunResult (EmailRequiresWrite "try again") []), S n)
|}.

(** A revision is asked for and the second critique call fails. *)
Definition script_critique_failure : list Reply :=
  [writer_ok draft1 ["exchange 1"]; revise "mention gardening";
   writer_ok draft2 ["exchange 2"];
   FeedbackReply (inl (GenerationFailure "timeout"))].

(** ** The interests list, further notions *)

(** An interest as [parse_interests] yields them: not empty, without a comma,
    and with no whitespace at either end. *)
Definition is_clean (x : string) : bool :=
  Str.truthy x && negb (Str.mem ","%char x)
  && match Str.first x with Some c => negb (Str.isspace c) | None => true end
  && match Str.last x with Some c => negb (Str.isspace c) | None => true end.

(** The string holds nothing but commas and whitespace. *)
Fixpoint blank (s : string) : bool :=
  match s with
  | EmptyString => true
  | String c s' => (Ascii.eqb c ","%char || Str.isspace c) && blank s'
  end.

(** How often the character [c] occurs in [s]. *)
Fixpoint count_char (c : ascii) (s : string) : nat :=
  match s with
  | EmptyString => 0
  | String d s' => (if Ascii.eqb d c then 1 else 0) + count_char c s'
  end.

(** ** The three-node graph of [example.py] *)

Module Example.

(** [NodeA], [NodeB] and [NodeC], each with its [track_number]. *)
Inductive Node :=
| NodeA (track_number : Z)
| NodeB (track_number : Z)
| NodeC (track_number : Z).

Inductive Next :=
| NextNode (node : Node)
| End (data : string).

(** [f"{n}"] for an [int]: the decimal digits, a minus sign before them for
    a negative number. *)
Definition fmt_int (n : Z) : string := NilZero.string_of_int (Z.to_int n).

(** [node.run(ctx)]: the line it prints and what it returns. *)
Definition Node_run (node : Node) : string * Next :=
  match node with
  | NodeA n => ("Calling A", NextNode (NodeB n))
  | NodeB n =>
      ("Calling B",
       if Z.eqb n 1 then End ("Stop at Node B with value --> " +:+ fmt_int n)
       else NextNode (NodeC n))
  | NodeC n =>
      ("Calling C", End ("Stop at Node C with value --> " +:+ fmt_int n))
  end.

Inductive Status :=
| Running (node : Node)
| Finished (data : string).

(** A run: where it stands, the lines printed so far, the nodes run so far. *)
Record Run := mkRun {
  status : Status;
  stdout : list string;
  visited : list Node
}.

(** Modelled from the spec: one transition of the graph runner of the
    third-party pydantic_graph, as for the email graph: the current node is
    recorded and run, and its result is the next node or the end. *)
Definition Graph_next (r : Run) : Run :=
  match status r with
  | Running node =>
      let '(line, next) := Node_run node in
      mkRun (match next with NextNode n => Running n | End d => Finished d end)
        (stdout r ++ [line]) (visited r ++ [node])
  | Finished _ => r
  end.

Fixpoint Graph_iter (fuel : nat) (r : Run) : Run :=
  match fuel with
  | O => r
  | S fuel' => Graph_iter fuel' (Graph_next r)
  end.

(** Modelled from the spec: [graph.run_sync(start_node=...)], the loop that
    repeats the transition until the graph ends; [None] while it has not
    ended within the fuel. *)
Definition run_sync (fuel : nat) (start_node : Node) : option string * Run :=
  let r := Graph_iter fuel (mkRun (Running start_node) [] []) in
  (match status r with Running _ => None | Finished d => Some d end, r).


End Example.

(** * Properties *)

(** ** Strings: splitting and trimming *)

Module StrFacts.
Import Str.

Lemma truthy_eqb (s : string) : truthy s = negb (String.eqb s "").
Proof. destruct s; reflexivity. Qed.

Lemma truthy_nonempty (s : string) : truthy s = true <-> s <> "".
Proof. destruct s; simpl; split; intros; congruence. Qed.

Lemma app_nil_l (s : string) : "" +:+ s = s.
Proof. reflexivity. Qed.

Lemma app_cons (c : ascii) (s t : string) :
  String c s +:+ t = String c (s +:+ t).
Proof. reflexivity. Qed.

(** Unfolds the appends whose left operand starts with a constructor. *)
Ltac push_app := rewrite ?app_cons, ?app_nil_l in *.

Lemma app_empty_r (s : string) : s +:+ "" = s.
Proof. induction s as [|c s IH]; push_app; [reflexivity | now rewrite IH]. Qed.

Lemma app_assoc (a b c : string) : (a +:+ b) +:+ c = a +:+ b +:+ c.
Proof. induction a as [|x a IH]; push_app; [reflexivity | now rewrite IH]. Qed.

Lemma mem_app (c : ascii) (a b : string) :
  mem c (a +:+ b) = mem c a || mem c b.
Proof.
  induction a as [|x a IH]; push_app; simpl; [reflexivity|].
  rewrite IH. now rewrite orb_assoc.
Qed.

Lemma lstrip_spec (s : string) :
  (exists l, s = l +:+ lstrip s /\ all_space l = true)
  /\ (forall c, first (lstrip s) = Some c -> isspace c = false).
Proof.
  induction s as [|x s [[l [Hl Hsp]] Hfirst]]; simpl.
  - split; [exists ""; split; reflexivity | discriminate].
  - destruct (isspace x) eqn:Hx.
    + split; [|exact Hfirst].
      exists (String x l). push_app. simpl. rewrite Hx, Hsp.
      split; [congruence | reflexivity].
    + split; [exists ""; split; reflexivity|].
      simpl. intros c [= <-]. exact Hx.
Qed.

Lemma rstrip_spec (s : string) :
  (exists r, s = rstrip s +:+ r /\ all_space r = true)
  /\ (forall c, last (rstrip s) = Some c -> isspace c = false).
Proof.
  induction s as [|x s [[r [Hr Hsp]] Hlast]]; simpl.
  - split; [exists ""; split; reflexivity | discriminate].
  - destruct (rstrip s) as [|y t] eqn:Ht.
    + destruct (isspace x) eqn:Hx.
      * split; [|discriminate].
        exists (String x r). push_app. simpl. rewrite Hx, Hsp.
        split; [congruence | reflexivity].
      * split; [exists r; push_app; split; [congruence | exact Hsp]|].
        simpl. intros c [= <-]. exact Hx.
    + split; [exists r; push_app; split; [congruence | exact Hsp]|].
      exact Hlast.
Qed.

Lemma rstrip_first_inv (s : string) (c : ascii) :
  first (rstrip s) = Some c -> first s = Some c.
Proof.
  destruct s as [|x s]; simpl; [discriminate|].
  destruct (rstrip s); [destruct (isspace x)|]; simpl; congruence.
Qed.

Lemma strip_trimmed (s : string) : trimmed_of s (strip s).
Proof.
  unfold strip, trimmed_of.
  destruct (lstrip_spec s) as [[l [Hl Hlsp]] Hfirst].
  destruct (rstrip_spec (lstrip s)) as [[r [Hr Hrsp]] Hlast].
  split; [|split].
  - exists l, r. split; [|split]; try assumption.
    rewrite <- Hr. exact Hl.
  - intros c Hc. apply Hfirst. now apply rstrip_first_inv.
  - exact Hlast.
Qed.

Lemma split_nonempty (sep : ascii) (s : string) : split sep s <> [].
Proof.
  induction s as [|c s IH]; simpl; [discriminate|].
  destruct (Ascii.eqb c sep); [discriminate|].
  destruct (split sep s); [contradiction | discriminate].
Qed.

Lemma join_cons (sep : ascii) (p q : string) (ps : list string) :
  join sep (p :: q :: ps) = p +:+ String sep (join sep (q :: ps)).
Proof. reflexivity. Qed.

Lemma join_split (sep : ascii) (s : string) : join sep (split sep s) = s.
Proof.
  induction s as [|c s IH]; simpl; [reflexivity|].
  pose proof (split_nonempty sep s) as Hne.
  destruct (Ascii.eqb c sep) eqn:Hc.
  - apply Ascii.eqb_eq in Hc. subst c.
    destruct (split sep s) as [|p ps] eqn:Hs; [contradiction|].
    rewrite join_cons, IH. reflexivity.
  - destruct (split sep s) as [|p ps] eqn:Hs; [contradiction|].
    destruct ps as [|q qs].
    + simpl in *. now rewrite IH.
    + rewrite join_cons in *. push_app. now rewrite IH.
Qed.

Lemma split_no_sep (sep : ascii) (s p : string) :
  In p (split sep s) -> mem sep p = false.
Proof.
  revert p. induction s as [|c s IH]; simpl; intros p Hp.
  - destruct Hp as [<-|[]]. reflexivity.
  - destruct (Ascii.eqb c sep) eqn:Hc.
    + destruct Hp as [<-|Hp]; [reflexivity | now apply IH].
    + pose proof (split_nonempty sep s) as Hne.
      destruct (split sep s) as [|q qs] eqn:Hs; [contradiction|].
      destruct Hp as [<-|Hp].
      * simpl. rewrite Hc. apply IH. now left.
      * apply IH. now right.
Qed.

Lemma trimmed_mem (c : ascii) (s t : string) :
  trimmed_of s t -> mem c s = false -> mem c t = false.
Proof.
  intros [[l [r [-> _]]] _] H.
  rewrite !mem_app in H.
  apply orb_false_iff in H as [_ H]. now apply orb_false_iff in H as [H _].
Qed.

End StrFacts.

(** ** The interests list of the entry function *)

Lemma parse_interests_refines (s : string) :
  parse_interests s = parse_interests_spec s.
Proof.
  unfold parse_interests, parse_interests_spec.
  induction (Str.split "," s) as [|p ps IH]; simpl; [reflexivity|].
  rewrite IH, StrFacts.truthy_eqb.
  destruct (negb (String.eqb (Str.strip p) "")); reflexivity.
Qed.

Lemma parse_interests_elements (s x : string) :
  In x (parse_interests s) ->
  x <> "" /\ exists piece, In piece (Str.split "," s) /\ x = Str.strip piece.
Proof.
  unfold parse_interests. rewrite in_flat_map.
  intros [piece [Hin Hx]].
  destruct (Str.truthy (Str.strip piece)) eqn:Ht; [|destruct Hx].
  destruct Hx as [<-|[]].
  split; [now apply StrFacts.truthy_nonempty | now exists piece].
Qed.

(** C8: the interests string is cut at its commas (joining the pieces with
    commas gives the input back), every piece is trimmed of its leading and
    trailing whitespace and the pieces that are empty after trimming are
    dropped, in the order of the input; the string of scenario D parses to
    chess, gardening. *)
Theorem parse_interests_trims_and_drops :
  (forall s, parse_interests s = parse_interests_spec s)
  /\ (forall s, Str.join "," (Str.split "," s) = s)
  /\ (forall s x, In x (parse_interests s) ->
        x <> "" /\ Str.mem "," x = false
        /\ exists piece,
             In piece (Str.split "," s) /\ x = Str.strip piece
             /\ Str.trimmed_of piece x)
  /\ (forall s piece, In piece (Str.split "," s) ->
        Str.strip piece <> "" -> In (Str.strip piece) (parse_interests s))
  /\ parse_interests "chess, , gardening," = ["chess"; "gardening"].
Proof.
  split; [exact parse_interests_refines|].
  split; [intros s; apply StrFacts.join_split|].
  split; [|split; [|reflexivity]].
  - intros s x Hx.
    destruct (parse_interests_elements s x Hx) as [Hne [piece [Hin ->]]].
    split; [exact Hne|]. split.
    + apply (StrFacts.trimmed_mem _ piece); [apply StrFacts.strip_trimmed|].
      now apply (StrFacts.split_no_sep _ s).
    + exists piece. split; [exact Hin|]. split; [reflexivity|].
      apply StrFacts.strip_trimmed.
  - intros s piece Hin Hne. unfold parse_interests. rewrite in_flat_map.
    exists piece. split; [exact Hin|].
    apply StrFacts.truthy_nonempty in Hne. rewrite Hne. now left.
Qed.

(** ** The nodes and the run, for any backend *)

Section GraphFacts.
Context `{Services}.

Implicit Types (w : World) (r : Run) (fb : option string) (e : Exn).

Ltac run_node :=
  unfold WriteEmail_run, Feedback_run, bind, get_state, ret,
    await_email_writer_agent, await_feedback_agent, set_write_agent_messages;
  simpl.

Lemma WriteEmail_run_ok fb w (res : RunResult ModelMessage Email) b' :
  email_writer_agent_run (WriteEmail_prompt fb (user (state w))) (backend w)
    = (inr res, b') ->
  WriteEmail_run fb w =
    (inr (Feedback (data res)),
     mkWorld (mkState (user (state w)) (all_messages res)) b'
       (calls w ++ [WriterCall (WriteEmail_prompt fb (user (state w)))])).
Proof. intros Hr. run_node. rewrite Hr. reflexivity. Qed.

Lemma WriteEmail_run_fail fb w e b' :
  email_writer_agent_run (WriteEmail_prompt fb (user (state w))) (backend w)
    = (inl e, b') ->
  WriteEmail_run fb w =
    (inl e,
     mkWorld (state w) b'
       (calls w ++ [WriterCall (WriteEmail_prompt fb (user (state w)))])).
Proof. intros Hr. run_node. rewrite Hr. reflexivity. Qed.

Lemma Feedback_run_ok doc w (v : RunResult ModelMessage FeedbackData) b' :
  feedback_agent_run (Feedback_prompt (user (state w)) doc) (backend w)
    = (inr v, b') ->
  Feedback_run doc w =
    (inr (verdict_next doc (data v)),
     mkWorld (state w) b'
       (calls w ++ [FeedbackCall (Feedback_prompt (user (state w)) doc)])).
Proof.
  intros Hr. run_node. rewrite Hr.
  destruct (data v); reflexivity.
Qed.

Lemma Feedback_run_fail doc w e b' :
  feedback_agent_run (Feedback_prompt (user (state w)) doc) (backend w)
    = (inl e, b') ->
  Feedback_run doc w =
    (inl e,
     mkWorld (state w) b'
       (calls w ++ [FeedbackCall (Feedback_prompt (user (state w)) doc)])).
Proof. intros Hr. run_node. rewrite Hr. reflexivity. Qed.

(** A node body never changes the user. *)
Lemma Node_run_user node w :
  user (state (snd (Node_run node w))) = user (state w).
Proof.
  destruct node as [fb|doc]; simpl; run_node.
  - destruct (email_writer_agent_run _ _) as [[e|res] b']; reflexivity.
  - destruct (feedback_agent_run _ _) as [[e|v] b']; [reflexivity|].
    destruct (data v); reflexivity.
Qed.

(** The critique node leaves the whole state as it was. *)
Lemma Feedback_run_state doc w : state (snd (Feedback_run doc w)) = state w.
Proof.
  run_node. destruct (feedback_agent_run _ _) as [[e|v] b']; [reflexivity|].
  destruct (data v); reflexivity.
Qed.

Lemma Graph_next_user r :
  user (state (world (Graph_next r))) = user (state (world r)).
Proof.
  unfold Graph_next. destruct (status r) as [node|d|e]; try reflexivity.
  pose proof (Node_run_user node (world r)) as Hu.
  destruct (Node_run node (world r)) as [[e|[n|d]] w']; exact Hu.
Qed.

Lemma Graph_iter_user fuel r :
  user (state (world (Graph_iter fuel r))) = user (state (world r)).
Proof.
  revert r. induction fuel as [|fuel IH]; intros r; simpl; [reflexivity|].
  rewrite IH. apply Graph_next_user.
Qed.

(** A run that has ended or failed stays as it is. *)
Lemma Graph_iter_halted fuel r :
  (forall node, status r <> Running node) -> Graph_iter fuel r = r.
Proof.
  intros Hst. induction fuel as [|fuel IH]; simpl; [reflexivity|].
  replace (Graph_next r) with r; [exact IH|].
  unfold Graph_next. destruct (status r) as [node| |]; try reflexivity.
  now destruct (Hst node).
Qed.

Lemma Graph_iter_add n m r :
  Graph_iter (n + m) r = Graph_iter m (Graph_iter n r).
Proof. revert r. induction n as [|n IH]; intros r; simpl; [reflexivity | apply IH]. Qed.

(** From [n] transitions on, a run that has halted after [n] is unchanged. *)
Lemma Graph_iter_settled n fuel r :
  (forall node, status (Graph_iter n r) <> Running node) ->
  n <= fuel -> Graph_iter fuel r = Graph_iter n r.
Proof.
  intros Hst Hle. replace fuel with (n + (fuel - n)) by lia.
  rewrite Graph_iter_add. now apply Graph_iter_halted.
Qed.

Lemma Graph_next_draft_ok fb w hist (res : RunResult ModelMessage Email) b' :
  email_writer_agent_run (WriteEmail_prompt fb (user (state w))) (backend w)
    = (inr res, b') ->
  Graph_next (mkRun (Running (WriteEmail fb)) w hist) =
    mkRun (Running (Feedback (data res)))
      (mkWorld (mkState (user (state w)) (all_messages res)) b'
         (calls w ++ [WriterCall (WriteEmail_prompt fb (user (state w)))]))
      (hist ++ [NodeStep (WriteEmail fb)]).
Proof.
  intros Hr. unfold Graph_next, Node_run, bind. simpl.
  rewrite (WriteEmail_run_ok _ _ _ _ Hr). reflexivity.
Qed.

Lemma Graph_next_draft_fail fb w hist e b' :
  email_writer_agent_run (WriteEmail_prompt fb (user (state w))) (backend w)
    = (inl e, b') ->
  Graph_next (mkRun (Running (WriteEmail fb)) w hist) =
    mkRun (Failed e)
      (mkWorld (state w) b'
         (calls w ++ [WriterCall (WriteEmail_prompt fb (user (state w)))]))
      (hist ++ [NodeStep (WriteEmail fb)]).
Proof.
  intros Hr. unfold Graph_next, Node_run, bind. simpl.
  rewrite (WriteEmail_run_fail _ _ _ _ Hr). reflexivity.
Qed.

Lemma Graph_next_critique doc w hist
    (v : RunResult ModelMessage FeedbackData) b' :
  feedback_agent_run (Feedback_prompt (user (state w)) doc) (backend w)
    = (inr v, b') ->
  Graph_next (mkRun (Running (Feedback doc)) w hist) =
    let w' := mkWorld (state w) b'
                (calls w ++ [FeedbackCall (Feedback_prompt (user (state w)) doc)]) in
    match data v with
    | EmailRequiresWrite feedback =>
        mkRun (Running (WriteEmail (Some feedback))) w'
          (hist ++ [NodeStep (Feedback doc)])
    | Email0k =>
        mkRun (Finished doc) w' (hist ++ [NodeStep (Feedback doc); EndStep doc])
    end.
Proof.
  intros Hr. unfold Graph_next, Node_run. simpl.
  rewrite (Feedback_run_ok _ _ _ _ Hr). destruct (data v); reflexivity.
Qed.

(** One transition of the run in the goal, by the reply of the agent. *)
Ltac step_draft res b Hw :=
  match goal with
  | |- context [Graph_next (mkRun (Running (WriteEmail ?fb)) ?w ?h)] =>
      rewrite (Graph_next_draft_ok fb w h res b Hw)
  end.

Ltac step_critique v b Hf :=
  match goal with
  | |- context [Graph_next (mkRun (Running (Feedback ?d)) ?w ?h)] =>
      rewrite (Graph_next_critique d w h v b Hf)
  end.

(** The run in which the first draft is approved: two transitions end it. *)
Lemma run_approved_first (st : State) (b0 b1 b2 : Backend)
    (res : RunResult ModelMessage Email)
    (v : RunResult ModelMessage FeedbackData) (fuel : nat) :
  email_writer_agent_run (WriteEmail_prompt None (user st)) b0 = (inr res, b1) ->
  feedback_agent_run (Feedback_prompt (user st) (data res)) b1 = (inr v, b2) ->
  data v = Email0k ->
  2 <= fuel ->
  run_after fuel st b0 =
    mkRun (Finished (data res))
      (mkWorld (mkState (user st) (all_messages res)) b2
         [WriterCall (WriteEmail_prompt None (user st));
          FeedbackCall (Feedback_prompt (user st) (data res))])
      [NodeStep (WriteEmail None); NodeStep (Feedback (data res));
       EndStep (data res)].
Proof.
  intros Hw Hf Hv Hfuel. unfold run_after.
  assert (Graph_iter 2 (Graph_start (WriteEmail None) st b0) =
    mkRun (Finished (data res))
      (mkWorld (mkState (user st) (all_messages res)) b2
         [WriterCall (WriteEmail_prompt None (user st));
          FeedbackCall (Feedback_prompt (user st) (data res))])
      [NodeStep (WriteEmail None); NodeStep (Feedback (data res));
       EndStep (data res)]) as H2.
  { unfold Graph_start. simpl.
    step_draft res b1 Hw. step_critique v b2 Hf.
    simpl. rewrite Hv. reflexivity. }
  rewrite (Graph_iter_settled 2); [exact H2 | | exact Hfuel].
  rewrite H2. discriminate.
Qed.

(** C1: when the first critique approves, the run ends after one draft call
    and one critique call, whatever the fuel from two on; the caller gets the
    document the draft call produced and the critique call judged, and the
    log of backend calls holds these two calls and nothing after them. *)
Theorem approved_first_time (st : State) (b0 b1 b2 : Backend)
    (res : RunResult ModelMessage Email)
    (v : RunResult ModelMessage FeedbackData) (fuel : nat) :
  email_writer_agent_run (WriteEmail_prompt None (user st)) b0 = (inr res, b1) ->
  feedback_agent_run (Feedback_prompt (user st) (data res)) b1 = (inr v, b2) ->
  data v = Email0k ->
  2 <= fuel ->
  let log := [WriterCall (WriteEmail_prompt None (user st));
              FeedbackCall (Feedback_prompt (user st) (data res))] in
  Graph_run_sync fuel (WriteEmail None) st b0 =
    (Some (inr (data res,
                [NodeStep (WriteEmail None); NodeStep (Feedback (data res));
                 EndStep (data res)])),
     mkWorld (mkState (user st) (all_messages res)) b2 log)
  /\ status (run_after fuel st b0) = Finished (data res)
  /\ draft_calls log = 1 /\ critique_calls log = 1.
Proof.
  intros Hw Hf Hv Hfuel log.
  pose proof (run_approved_first st b0 b1 b2 res v fuel Hw Hf Hv Hfuel) as Hrun.
  unfold Graph_run_sync. unfold run_after in Hrun. rewrite Hrun.
  unfold run_after. rewrite Hrun. repeat split.
Qed.

(** C3: when the first critique asks for a revision with feedback [fb] and
    the second approves, the run makes two draft calls and two critique
    calls; the second draft node carries [fb] and its prompt is built from
    it, and the caller gets the document of the second draft call. *)
Theorem revised_once (st : State) (b0 b1 b2 b3 b4 : Backend)
    (res1 res2 : RunResult ModelMessage Email)
    (v1 v2 : RunResult ModelMessage FeedbackData) (fb : string) (fuel : nat) :
  email_writer_agent_run (WriteEmail_prompt None (user st)) b0 = (inr res1, b1) ->
  feedback_agent_run (Feedback_prompt (user st) (data res1)) b1 = (inr v1, b2) ->
  data v1 = EmailRequiresWrite fb ->
  email_writer_agent_run (WriteEmail_prompt (Some fb) (user st)) b2
    = (inr res2, b3) ->
  feedback_agent_run (Feedback_prompt (user st) (data res2)) b3 = (inr v2, b4) ->
  data v2 = Email0k ->
  4 <= fuel ->
  let log := [WriterCall (WriteEmail_prompt None (user st));
              FeedbackCall (Feedback_prompt (user st) (data res1));
              WriterCall (WriteEmail_prompt (Some fb) (user st));
              FeedbackCall (Feedback_prompt (user st) (data res2))] in
  Graph_run_sync fuel (WriteEmail None) st b0 =
    (Some (inr (data res2,
                [NodeStep (WriteEmail None); NodeStep (Feedback (data res1));
                 NodeStep (WriteEmail (Some fb));
                 NodeStep (Feedback (data res2)); EndStep (data res2)])),
     mkWorld (mkState (user st) (all_messages res2)) b4 log)
  /\ draft_calls log = 2 /\ critique_calls log = 2.
Proof.
  intros Hw1 Hf1 Hv1 Hw2 Hf2 Hv2 Hfuel log.
  assert (Graph_iter 4 (Graph_start (WriteEmail None) st b0) =
    mkRun (Finished (data res2))
      (mkWorld (mkState (user st) (all_messages res2)) b4 log)
      [NodeStep (WriteEmail None); NodeStep (Feedback (data res1));
       NodeStep (WriteEmail (Some fb));
       NodeStep (Feedback (data res2)); EndStep (data res2)]) as H4.
  { unfold Graph_start. simpl.
    step_draft res1 b1 Hw1. step_critique v1 b2 Hf1.
    simpl. rewrite Hv1.
    step_draft res2 b3 Hw2. step_critique v2 b4 Hf2.
    simpl. rewrite Hv2. reflexivity. }
  unfold Graph_run_sync.
  rewrite (Graph_iter_settled 4); [| rewrite H4; discriminate | exact Hfuel].
  rewrite H4. repeat split.
Qed.

(** C7: in a run that has come to a draft call which fails with [e], every
    further amount of fuel gives the caller [e]; the state is the one before
    the call, and the log of backend calls ends with the failed draft call:
    no critique call and no second attempt follows it. *)
Theorem draft_failure_aborts (st : State) (b b' : Backend) (k fuel : nat)
    (fb : option string) (e : Exn) :
  let r := run_after k st b in
  let prompt := WriteEmail_prompt fb (user (state (world r))) in
  status r = Running (WriteEmail fb) ->
  email_writer_agent_run prompt (backend (world r)) = (inl e, b') ->
  k < fuel ->
  Graph_run_sync fuel (WriteEmail None) st b =
    (Some (inl e),
     mkWorld (state (world r)) b' (calls (world r) ++ [WriterCall prompt]))
  /\ history (run_after fuel st b)
     = (history r ++ [NodeStep (WriteEmail fb)])%list.
Proof.
  intros r prompt Hst Hw Hfuel.
  assert (Graph_iter (S k) (Graph_start (WriteEmail None) st b) =
    mkRun (Failed e)
      (mkWorld (state (world r)) b' (calls (world r) ++ [WriterCall prompt]))
      (history r ++ [NodeStep (WriteEmail fb)])) as Hk.
  { replace (S k) with (k + 1) by lia. rewrite Graph_iter_add.
    fold (run_after k st b). fold r. simpl.
    destruct r as [s w h]. simpl in *. subst s.
    exact (Graph_next_draft_fail fb w h e b' Hw). }
  unfold Graph_run_sync, run_after.
  rewrite (Graph_iter_settled (S k)); [| rewrite Hk; discriminate | lia].
  rewrite Hk. split; reflexivity.
Qed.

(** C9: neither node changes the user of the state, so after any number of
    transitions of a run the state holds the user it started with. *)
Theorem user_is_preserved :
  (forall (fb : option string) (w : World),
      user (state (snd (WriteEmail_run fb w))) = user (state w))
  /\ (forall (doc : Email) (w : World),
      user (state (snd (Feedback_run doc w))) = user (state w))
  /\ (forall (k : nat) (st : State) (b : Backend),
      user (state (world (run_after k st b))) = user st).
Proof.
  split; [|split].
  - intros fb w. pose proof (Node_run_user (WriteEmail fb) w) as Hu.
    simpl in Hu. unfold bind in Hu.
    destruct (WriteEmail_run fb w) as [[e|n] w']; exact Hu.
  - intros doc w. exact (Node_run_user (Feedback doc) w).
  - intros k st b. unfold run_after. rewrite Graph_iter_user. reflexivity.
Qed.

(** C2: with no feedback the draft prompt is a fixed text about the example
    user John Doe: it is the same for every user, it holds neither the name
    nor an interest of the user of scenario A, and it is the prompt of the
    first backend call of every run. *)
Theorem initial_prompt_ignores_user :
  (forall u : User,
      WriteEmail_prompt None u
      = "Write a welcome email for the user:" +:+ Str.nl +:+ user_xml)
  /\ (forall u1 u2 : User, WriteEmail_prompt None u1 = WriteEmail_prompt None u2)
  /\ Str.contains "Jane Doe" (WriteEmail_prompt None jane) = false
  /\ Str.contains "chess" (WriteEmail_prompt None jane) = false
  /\ Str.contains "gardening" (WriteEmail_prompt None jane) = false
  /\ Str.contains "John Doe" (WriteEmail_prompt None jane) = true
  /\ (forall (st : State) (b : Backend),
        calls (world (run_after 1 st b))
        = [WriterCall ("Write a welcome email for the user:"
                       +:+ Str.nl +:+ user_xml)]).
Proof.
  repeat split; try reflexivity.
  intros st b. unfold run_after, Graph_start. simpl.
  unfold Graph_next, Node_run, bind. simpl. run_node.
  destruct (email_writer_agent_run _ b) as [[e|res] b']; reflexivity.
Qed.

(** C5: [generate_email] takes every string as the email address: whenever
    the backend answers the first draft call and approves the draft, the
    draft call and the critique call are made and the rendered email is
    returned; the address is checked nowhere. *)
Theorem generate_email_accepts_any_email (name email interests : string)
    (b0 b1 b2 : Backend) (res : RunResult ModelMessage Email)
    (v : RunResult ModelMessage FeedbackData) (fuel : nat) :
  let u := mkUser name email (parse_interests interests) in
  email_writer_agent_run (WriteEmail_prompt None u) b0 = (inr res, b1) ->
  feedback_agent_run (Feedback_prompt u (data res)) b1 = (inr v, b2) ->
  data v = Email0k ->
  2 <= fuel ->
  generate_email fuel name email interests b0 =
    (Some (inr ("Subject: " +:+ subject (data res)
                +:+ Str.nl +:+ Str.nl +:+ body (data res))),
     mkWorld (mkState u (all_messages res)) b2
       [WriterCall (WriteEmail_prompt None u);
        FeedbackCall (Feedback_prompt u (data res))]).
Proof.
  intros u Hw Hf Hv Hfuel. unfold generate_email, Graph_run_sync.
  fold u. fold (run_after fuel (mkState u []) b0).
  rewrite (run_approved_first (mkState u []) b0 b1 b2 res v fuel Hw Hf Hv Hfuel).
  reflexivity.
Qed.

(** C6, as the code has it: a draft call that succeeds sets the history to
    the messages of its own exchange, whatever was recorded before; a
    critique call leaves the state as it was. *)
Theorem draft_replaces_history (fb : option string) (w : World)
    (res : RunResult ModelMessage Email) (b' : Backend) :
  email_writer_agent_run (WriteEmail_prompt fb (user (state w))) (backend w)
    = (inr res, b') ->
  write_agent_messages (state (snd (WriteEmail_run fb w))) = all_messages res
  /\ (forall (doc : Email) (w0 : World),
        state (snd (Feedback_run doc w0)) = state w0).
Proof.
  intros Hw. split.
  - rewrite (WriteEmail_run_ok fb w res b' Hw). reflexivity.
  - exact Feedback_run_state.
Qed.

(** C10: an empty feedback string counts as no feedback.  The node with the
    empty string builds the prompt of the initial draft and behaves as the
    node without feedback; the rewrite prompt is built exactly when the
    feedback is a non-empty string, and then it ends with that string. *)
Theorem empty_feedback_is_no_feedback (u : User) :
  WriteEmail_prompt (Some "") u = WriteEmail_prompt None u
  /\ (forall w : World, WriteEmail_run (Some "") w = WriteEmail_run None w)
  /\ (forall fb : option string,
        truthy fb = true <-> exists s, fb = Some s /\ s <> "")
  /\ (forall fb : option string,
        truthy fb = false -> WriteEmail_prompt fb u = WriteEmail_prompt None u)
  /\ (forall s : string,
        s <> "" ->
        WriteEmail_prompt (Some s) u
        = "Rewrite the email for the user:" +:+ Str.nl
          +:+ format_as_xml (XmlUser u) +:+ Str.nl +:+ "Feedback: " +:+ s).
Proof.
  split; [reflexivity|]. split; [reflexivity|]. split; [|split].
  - intros [s|]; simpl.
    + rewrite StrFacts.truthy_nonempty. split.
      * intros Hs. now exists s.
      * intros [s' [[= <-] Hs]]. exact Hs.
    + split; [discriminate | intros [s [Hs _]]; discriminate].
  - intros fb Hfb. unfold WriteEmail_prompt. rewrite Hfb. reflexivity.
  - intros s Hs. unfold WriteEmail_prompt. simpl.
    apply StrFacts.truthy_nonempty in Hs. rewrite Hs. reflexivity.
Qed.

End GraphFacts.

(** ** Module start-up *)

(** C4, as the code has it: when the key is absent from the environment the
    lookup yields the placeholder text, and loading the module returns the
    two models configured with it. *)
Theorem missing_key_defaults_to_placeholder (environ : gmap string string) :
  environ !! "OPENAI_API_KEY" = None ->
  openai_api_key environ = "your-api-key-here"
  /\ module_init environ =
       inr (mkModels (mkOpenAIModel "gpt-3.5-turbo" "your-api-key-here")
                     (mkOpenAIModel "gpt-3.5-turbo" "your-api-key-here")).
Proof.
  intros Hkey.
  assert (openai_api_key environ = "your-api-key-here") as Hk.
  { unfold openai_api_key, os_getenv. rewrite Hkey. reflexivity. }
  split; [exact Hk|]. unfold module_init. rewrite Hk. reflexivity.
Qed.

Lemma missing_key_defaults_to_placeholder_witness :
  (∅ : gmap string string) !! "OPENAI_API_KEY" = None
  /\ openai_api_key ∅ = "your-api-key-here".
Proof.
  split; [apply lookup_empty|].
  apply (missing_key_defaults_to_placeholder ∅). apply lookup_empty.
Defined.

(** With an empty environment the module loads, and both models hold the
    placeholder: no configuration error is raised. *)
Lemma missing_key_does_not_fail :
  (∅ : gmap string string) !! "OPENAI_API_KEY" = None
  /\ module_init ∅ =
       inr (mkModels (mkOpenAIModel "gpt-3.5-turbo" "your-api-key-here")
                     (mkOpenAIModel "gpt-3.5-turbo" "your-api-key-here"))
  /\ (forall detail, module_init ∅ <> inl (ConfigurationError detail)).
Proof.
  split; [apply lookup_empty|]. split; [|discriminate].
  unfold module_init, openai_api_key, os_getenv.
  rewrite lookup_empty. reflexivity.
Qed.

(** ** The scenarios on the scripted backend *)

Lemma approved_first_time_witness :
  fst (@Graph_run_sync scripted 5 (WriteEmail None)
         (@mkState scripted jane []) script_A)
  = Some (inr (draft1,
               [NodeStep (WriteEmail None); NodeStep (Feedback draft1);
                EndStep draft1]))
  /\ length (@calls scripted
       (snd (@Graph_run_sync scripted 5 (WriteEmail None)
               (@mkState scripted jane []) script_A))) = 2.
Proof.
  destruct (@approved_first_time scripted (@mkState scripted jane [])
              script_A [approve] [] (mkRunResult draft1 ["exchange 1"])
              (mkRunResult Email0k []) 5
              eq_refl eq_refl eq_refl ltac:(lia)) as [Hrun _].
  rewrite Hrun. split; reflexivity.
Defined.

Lemma revised_once_witness :
  fst (@Graph_run_sync scripted 6 (WriteEmail None)
         (@mkState scripted jane []) script_B)
  = Some (inr (draft2,
               [NodeStep (WriteEmail None); NodeStep (Feedback draft1);
                NodeStep (WriteEmail (Some "mention gardening"));
                NodeStep (Feedback draft2); EndStep draft2]))
  /\ length (@calls scripted
       (snd (@Graph_run_sync scripted 6 (WriteEmail None)
               (@mkState scripted jane []) script_B))) = 4.
Proof.
  destruct (@revised_once scripted (@mkState scripted jane []) script_B
              [revise "mention gardening"; writer_ok draft2 ["exchange 2"];
               approve]
              [writer_ok draft2 ["exchange 2"]; approve] [approve] []
              (mkRunResult draft1 ["exchange 1"])
              (mkRunResult draft2 ["exchange 2"])
              (mkRunResult (EmailRequiresWrite "mention gardening") [])
              (mkRunResult Email0k []) "mention gardening" 6
              eq_refl eq_refl eq_refl eq_refl eq_refl eq_refl ltac:(lia))
    as [Hrun _].
  rewrite Hrun. split; reflexivity.
Defined.

Lemma draft_failure_aborts_witness :
  (fst (@Graph_run_sync scripted 3 (WriteEmail None)
          (@mkState scripted jane []) script_C)
   = Some (inl (GenerationFailure "malformed output"))
   /\ critique_calls (@calls scripted
        (snd (@Graph_run_sync scripted 3 (WriteEmail None)
                (@mkState scripted jane []) script_C))) = 0)
  /\ @status scripted
       (@run_after scripted 2 (@mkState scripted jane []) script_late_failure)
     = Running (WriteEmail (Some "mention gardening"))
  /\ fst (@Graph_run_sync scripted 7 (WriteEmail None)
            (@mkState scripted jane []) script_late_failure)
     = Some (inl (GenerationFailure "quota exceeded"))
  /\ critique_calls (@calls scripted
       (snd (@Graph_run_sync scripted 7 (WriteEmail None)
               (@mkState scripted jane []) script_late_failure))) = 1.
Proof.
  split.
  - destruct (@draft_failure_aborts scripted (@mkState scripted jane [])
                script_C [approve] 0 3 None
                (GenerationFailure "malformed output")
                eq_refl eq_refl ltac:(lia)) as [Hrun _].
    rewrite Hrun. split; reflexivity.
  - split; [reflexivity|].
    destruct (@draft_failure_aborts scripted (@mkState scripted jane [])
                script_late_failure [approve] 2 7
                (Some "mention gardening") (GenerationFailure "quota exceeded")
                eq_refl eq_refl ltac:(lia)) as [Hrun _].
    rewrite Hrun. split; reflexivity.
Defined.

Lemma generate_email_accepts_any_email_witness :
  fst (@generate_email scripted 2 "Jane Doe" "not-an-email"
         "chess, , gardening," script_A)
  = Some (inr ("Subject: Welcome to ABC" +:+ Str.nl +:+ Str.nl
               +:+ "Hello, welcome aboard."))
  /\ length (@calls scripted
       (snd (@generate_email scripted 2 "Jane Doe" "not-an-email"
               "chess, , gardening," script_A))) = 2.
Proof.
  rewrite (@generate_email_accepts_any_email scripted "Jane Doe"
             "not-an-email" "chess, , gardening," script_A [approve] []
             (mkRunResult draft1 ["exchange 1"]) (mkRunResult Email0k []) 2
             eq_refl eq_refl eq_refl ltac:(lia)).
  split; reflexivity.
Defined.

Lemma draft_replaces_history_witness :
  @write_agent_messages scripted (@state scripted (@world scripted (run_B 2)))
  = ["exchange 1"]
  /\ @write_agent_messages scripted
       (@state scripted
          (snd (@WriteEmail_run scripted (Some "mention gardening")
                  (@world scripted (run_B 2)))))
     = ["exchange 2"].
Proof.
  split; [reflexivity|].
  apply (@draft_replaces_history scripted (Some "mention gardening")
           (@world scripted (run_B 2)) (mkRunResult draft2 ["exchange 2"])
           [approve] eq_refl).
Defined.

(** In scenario B the first draft call records its exchange; after the
    second draft call that record is gone and the history holds the second
    exchange only, so the history is not extended from call to call. *)
Lemma history_is_overwritten :
  @write_agent_messages scripted (@state scripted (@world scripted (run_B 1)))
  = ["exchange 1"]
  /\ @write_agent_messages scripted (@state scripted (@world scripted (run_B 3)))
     = ["exchange 2"]
  /\ @status scripted (run_B 4) = Finished draft2
  /\ draft_calls (@calls scripted (@world scripted (run_B 4))) = 2
  /\ ~ In "exchange 1"
       (@write_agent_messages scripted
          (@state scripted (@world scripted (run_B 4)))).
Proof.
  repeat split; try reflexivity.
  vm_compute. intros [Heq|[]]. discriminate.
Qed.

(** ** Every run, for any backend *)

Section RunFacts.
Context `{Services}.

(** [Graph_next] goes one of the ways of [Transition]. *)
Lemma Graph_next_transition (r : Run) : Transition r (Graph_next r).
Proof.
  destruct r as [[[fb|doc]|doc|e] w h]; try constructor.
  - destruct (email_writer_agent_run
                (WriteEmail_prompt fb (user (state w))) (backend w))
      as [[e|res] b'] eqn:Hw.
    + rewrite (Graph_next_draft_fail fb w h e b' Hw). now constructor.
    + rewrite (Graph_next_draft_ok fb w h res b' Hw). now constructor.
  - destruct (feedback_agent_run
                (Feedback_prompt (user (state w)) doc) (backend w))
      as [[e|v] b'] eqn:Hf.
    + unfold Graph_next, Node_run. simpl.
      rewrite (Feedback_run_fail doc w e b' Hf). now constructor.
    + rewrite (Graph_next_critique doc w h v b' Hf). simpl.
      destruct (data v) as [fb|] eqn:Hv.
      * now apply (T_revise doc w h v b' fb).
      * now apply (T_approve doc w h v b').
Qed.

(** What every transition keeps holds after any number of them. *)
Lemma Graph_iter_keeps (P : Run -> Prop) :
  (forall r r', Transition r r' -> P r -> P r') ->
  forall k r, P r -> P (Graph_iter k r).
Proof.
  intros Hstep k. induction k as [|k IH]; intros r Hr; simpl; [exact Hr|].
  apply IH. apply (Hstep r); [apply Graph_next_transition | exact Hr].
Qed.




(** *** The order and the number of the calls *)

Lemma alternating_snoc (e : bool) (log : list Call) (c : Call) :
  alternating e log = true ->
  alternating e (log ++ [c])
  = Bool.eqb (match c with WriterCall _ => true | FeedbackCall _ => false end)
      (if Nat.even (length log) then e else negb e).
Proof.
  revert e. induction log as [|x log IH]; intros e Halt.
  - destruct c, e; reflexivity.
  - change (length (x :: log)) with (S (length log)).
    rewrite Nat.even_succ, <- Nat.negb_even.
    destruct x; simpl in Halt |- *; apply andb_prop in Halt as [He Halt].
    + rewrite He, (IH false Halt). simpl.
      destruct (Nat.even (length log)); reflexivity.
    + apply negb_true_iff in He. rewrite He, (IH true Halt). simpl.
      destruct (Nat.even (length log)); reflexivity.
Qed.

Lemma alternating_counts (e : bool) (log : list Call) :
  alternating e log = true ->
  let odd := if Nat.even (length log) then 0 else 1 in
  if e then draft_calls log = critique_calls log + odd
  else critique_calls log = draft_calls log + odd.
Proof.
  revert e. induction log as [|x log IH]; intros e Halt.
  - destruct e; reflexivity.
  - change (length (x :: log)) with (S (length log)).
    rewrite Nat.even_succ, <- Nat.negb_even.
    destruct x; simpl in Halt; apply andb_prop in Halt as [He Halt].
    + rewrite He. specialize (IH false Halt). simpl in IH.
      unfold draft_calls, critique_calls in *. simpl.
      destruct (Nat.even (length log)); simpl; lia.
    + apply negb_true_iff in He. rewrite He.
      specialize (IH true Halt). simpl in IH.
      unfold draft_calls, critique_calls in *. simpl.
      destruct (Nat.even (length log)); simpl; lia.
Qed.

Lemma even_snoc (log : list Call) (c : Call) :
  Nat.even (length (log ++ [c])) = negb (Nat.even (length log)).
Proof.
  rewrite length_app. simpl. rewrite Nat.add_1_r, Nat.even_succ.
  symmetry. apply Nat.negb_even.
Qed.

Lemma order_inv_step (r r' : Run) :
  Transition r r' -> order_inv r -> order_inv r'.
Proof.
  destruct 1; unfold order_inv; simpl; intros [Halt Hpar];
    try (split; [exact Halt | exact Hpar]);
    (split; [rewrite (alternating_snoc true _ _ Halt), Hpar; reflexivity|]).
  - rewrite even_snoc, Hpar. reflexivity.
  - rewrite length_app. simpl. lia.
  - rewrite even_snoc, Hpar. reflexivity.
  - rewrite even_snoc, Hpar. split; [reflexivity|].
    rewrite length_app. simpl.
    destruct (calls w) as [|c1 log]; [discriminate | simpl; lia].
  - rewrite length_app. simpl. lia.
Qed.

Lemma order_inv_holds (k : nat) (st : State) (b : Backend) :
  order_inv (run_after k st b).
Proof.
  unfold run_after. apply Graph_iter_keeps; [exact order_inv_step|].
  unfold order_inv. simpl. split; reflexivity.
Qed.

(** X2: in every run the backend calls come in turn, a draft call first and
    then critique and draft calls alternately; so the critique calls never
    outnumber the draft calls, a run that waits for a critique has made one
    more draft call than critique calls, and a run that has ended with a
    document has made as many of the one as of the other, and at least one. *)
Theorem calls_alternate (k : nat) (st : State) (b : Backend) :
  let r := run_after k st b in
  let log := calls (world r) in
  alternating true log = true
  /\ critique_calls log <= draft_calls log <= S (critique_calls log)
  /\ (forall doc, status r = Running (Feedback doc) ->
        draft_calls log = S (critique_calls log))
  /\ (forall fb, status r = Running (WriteEmail fb) ->
        draft_calls log = critique_calls log)
  /\ (forall doc, status r = Finished doc ->
        draft_calls log = critique_calls log /\ 1 <= critique_calls log).
Proof.
  intros r log.
  destruct (order_inv_holds k st b) as [Halt Hpar]. fold r in Halt, Hpar.
  fold log in Halt, Hpar.
  pose proof (alternating_counts true log Halt) as Hcount. simpl in Hcount.
  split; [exact Halt|]. split; [|split; [|split]].
  - destruct (Nat.even (length log)); lia.
  - intros doc Hst. rewrite Hst in Hpar. rewrite Hpar in Hcount. lia.
  - intros fb Hst. rewrite Hst in Hpar. rewrite Hpar in Hcount. lia.
  - intros doc Hst. rewrite Hst in Hpar. destruct Hpar as [Hev Hlen].
    rewrite Hev in Hcount. split; [lia|].
    assert (length log = draft_calls log + critique_calls log) as Hsum.
    { unfold draft_calls, critique_calls. clear.
      induction log as [|[p|p] log IH]; simpl; lia. }
    lia.
Qed.

(** *** One backend call for each node run *)

Lemma node_steps_snoc (h : list HistoryStep) (node : Node) :
  node_steps (h ++ [NodeStep node]) = S (node_steps h).
Proof.
  unfold node_steps. rewrite List.filter_app, length_app. simpl. lia.
Qed.

Lemma node_steps_end (h : list HistoryStep) (node : Node) (doc : Email) :
  node_steps (h ++ [NodeStep node; EndStep doc]) = S (node_steps h).
Proof.
  unfold node_steps. rewrite List.filter_app, length_app. simpl. lia.
Qed.

(** A transition of a running graph adds one call and one node entry; a
    halted graph stays as it is. *)
Lemma Transition_counts (r r' : Run) :
  Transition r r' ->
  (exists node, status r = Running node
     /\ length (calls (world r')) = S (length (calls (world r)))
     /\ node_steps (history r') = S (node_steps (history r)))
  \/ ((forall node, status r <> Running node) /\ r' = r).
Proof.
  destruct 1;
    try (right; split; [discriminate | reflexivity]);
    left; eexists; (split; [reflexivity|]); simpl;
    rewrite length_app, ?node_steps_snoc, ?node_steps_end; simpl; split; lia.
Qed.

Lemma calls_within_fuel (k : nat) (r : Run) :
  length (calls (world (Graph_iter k r))) <= length (calls (world r)) + k
  /\ (forall node,
        status (Graph_iter k r) = Running node ->
        length (calls (world (Graph_iter k r))) = length (calls (world r)) + k)
  /\ node_steps (history (Graph_iter k r)) + length (calls (world r))
     = node_steps (history r) + length (calls (world (Graph_iter k r))).
Proof.
  revert r. induction k as [|k IH]; intros r; simpl.
  - repeat split; intros; lia.
  - destruct (IH (Graph_next r)) as [Hle [Heq Hnodes]].
    destruct (Transition_counts r _ (Graph_next_transition r))
      as [[node [Hst [Hc Hn]]]|[Hhalt Hsame]].
    + split; [lia|]. split; [|lia].
      intros node' Hrun. rewrite (Heq node' Hrun). lia.
    + rewrite Hsame in *. split; [lia|]. split; [|exact Hnodes].
      intros node' Hrun. rewrite (Graph_iter_halted k r Hhalt) in Hrun.
      now destruct (Hhalt node').
Qed.

Lemma one_call_per_node_aux (k : nat) (st : State) (b : Backend) :
  length (calls (world (run_after k st b))) <= k
  /\ (forall node,
        status (run_after k st b) = Running node ->
        length (calls (world (run_after k st b))) = k).
Proof.
  destruct (calls_within_fuel k (Graph_start (WriteEmail None) st b))
    as [Hle [Heq _]].
  split; [exact Hle | exact Heq].
Qed.


(** *** A critic that is never satisfied *)

(** X4: the loop has no bound of its own.  With a writer that always
    answers and a critic that always asks for a revision the run never ends:
    for every fuel the caller has no result yet, and the graph has made as
    many backend calls as it was given transitions. *)
Theorem unsatisfied_critic_never_ends (fuel : nat) (st : State) (b : Backend) :
  (forall p b0, exists res b1, email_writer_agent_run p b0 = (inr res, b1)) ->
  (forall p b0, exists v b1 fb,
      feedback_agent_run p b0 = (inr v, b1) /\ data v = EmailRequiresWrite fb) ->
  fst (Graph_run_sync fuel (WriteEmail None) st b) = None
  /\ length (calls (snd (Graph_run_sync fuel (WriteEmail None) st b))) = fuel.
Proof.
  intros Hwriter Hcritic.
  assert (exists node, status (run_after fuel st b) = Running node)
    as [node Hrun].
  { unfold run_after.
    apply (Graph_iter_keeps (fun r => exists node, status r = Running node));
      [|now exists (WriteEmail None)].
    intros r r' T [node Hst].
    destruct T as [fb w h res b' Hw|fb w h e b' Hw|doc w h v b' fb Hf Hv
                  |doc w h v b' Hf Hv|doc w h e b' Hf|doc w h|e w h];
      simpl in *; try discriminate; try (eexists; reflexivity).
    - destruct (Hwriter (WriteEmail_prompt fb (user (state w))) (backend w))
        as [res [b1 Hres]]. congruence.
    - destruct (Hcritic (Feedback_prompt (user (state w)) doc) (backend w))
        as [v' [b1 [fb [Hres Hv']]]]. congruence.
    - destruct (Hcritic (Feedback_prompt (user (state w)) doc) (backend w))
        as [v' [b1 [fb [Hres Hv']]]]. congruence. }
  unfold Graph_run_sync. fold (run_after fuel st b). simpl.
  split; [unfold outcome; now rewrite Hrun|].
  destruct (one_call_per_node_aux fuel st b) as [_ Heq]. exact (Heq node Hrun).
Qed.

(** *** Failure of a critique call *)

(** X1: in a run that has come to a critique call which fails with [e],
    every further amount of fuel gives the caller [e] and not the document
    that was being judged; the state is the one before the call and the log
    ends with the failed critique call: nothing is retried. *)
Theorem critique_failure_aborts (st : State) (b b' : Backend) (k fuel : nat)
    (doc : Email) (e : Exn) :
  let r := run_after k st b in
  let prompt := Feedback_prompt (user (state (world r))) doc in
  status r = Running (Feedback doc) ->
  feedback_agent_run prompt (backend (world r)) = (inl e, b') ->
  k < fuel ->
  Graph_run_sync fuel (WriteEmail None) st b =
    (Some (inl e),
     mkWorld (state (world r)) b' (calls (world r) ++ [FeedbackCall prompt]))
  /\ history (run_after fuel st b)
     = (history r ++ [NodeStep (Feedback doc)])%list.
Proof.
  intros r prompt Hst Hf Hfuel.
  assert (Graph_iter (S k) (Graph_start (WriteEmail None) st b) =
    mkRun (Failed e)
      (mkWorld (state (world r)) b' (calls (world r) ++ [FeedbackCall prompt]))
      (history r ++ [NodeStep (Feedback doc)])) as Hk.
  { replace (S k) with (k + 1) by lia. rewrite Graph_iter_add.
    fold (run_after k st b). fold r. simpl.
    destruct r as [s w h]. simpl in *. subst s.
    unfold Graph_next, Node_run. simpl.
    rewrite (Feedback_run_fail doc w e b' Hf). reflexivity. }
  unfold Graph_run_sync, run_after.
  rewrite (Graph_iter_settled (S k)); [| rewrite Hk; discriminate | lia].
  rewrite Hk. split; reflexivity.
Qed.

(** *** Where the results come from *)





End RunFacts.

(** ** The interests list: round trip, normal form, empty result, size *)

Module InterestsFacts.
Import Str StrFacts.

Lemma lstrip_id (s : string) :
  (forall c, first s = Some c -> isspace c = false) -> lstrip s = s.
Proof.
  destruct s as [|c s]; simpl; [reflexivity|].
  intros Hc. now rewrite (Hc c eq_refl).
Qed.

Lemma rstrip_id (s : string) :
  (forall c, last s = Some c -> isspace c = false) -> rstrip s = s.
Proof.
  induction s as [|c s IH]; [reflexivity|].
  intros Hc. simpl. destruct s as [|d s].
  - simpl. now rewrite (Hc c eq_refl).
  - rewrite IH; [reflexivity|]. intros x Hx. apply Hc. exact Hx.
Qed.

Lemma is_clean_spec (x : string) :
  is_clean x = true <->
  x <> "" /\ mem "," x = false
  /\ (forall c, first x = Some c -> isspace c = false)
  /\ (forall c, last x = Some c -> isspace c = false).
Proof.
  unfold is_clean. rewrite !andb_true_iff, truthy_nonempty, negb_true_iff.
  split.
  - intros [[[Hne Hmem] Hf] Hl]. repeat split; try assumption.
    + intros c Hc. rewrite Hc in Hf. now apply negb_true_iff.
    + intros c Hc. rewrite Hc in Hl. now apply negb_true_iff.
  - intros [Hne [Hmem [Hf Hl]]]. repeat split; try assumption.
    + destruct (first x) as [c|]; [|reflexivity].
      apply negb_true_iff. now apply Hf.
    + destruct (last x) as [c|]; [|reflexivity].
      apply negb_true_iff. now apply Hl.
Qed.

Lemma strip_clean (x : string) : is_clean x = true -> strip x = x.
Proof.
  intros Hx. apply is_clean_spec in Hx as [_ [_ [Hf Hl]]].
  unfold strip. rewrite (lstrip_id x Hf). now apply rstrip_id.
Qed.

Lemma split_none (sep : ascii) (p : string) :
  mem sep p = false -> split sep p = [p].
Proof.
  induction p as [|c p IH]; simpl; [reflexivity|].
  intros Hm. apply orb_false_iff in Hm as [Hc Hm].
  rewrite Hc, (IH Hm). reflexivity.
Qed.

Lemma split_app_sep (sep : ascii) (p rest : string) :
  mem sep p = false ->
  split sep (p +:+ String sep rest) = p :: split sep rest.
Proof.
  induction p as [|c p IH]; intros Hm; push_app.
  - simpl. now rewrite Ascii.eqb_refl.
  - simpl in Hm. apply orb_false_iff in Hm as [Hc Hm].
    simpl. rewrite Hc, (IH Hm). reflexivity.
Qed.

Lemma split_join (sep : ascii) (l : list string) :
  l <> [] -> Forall (fun x => mem sep x = false) l ->
  split sep (join sep l) = l.
Proof.
  induction l as [|p [|q l] IH]; intros Hne Hall; [contradiction| |].
  - simpl. apply split_none. now inversion Hall.
  - rewrite join_cons. inversion Hall as [|? ? Hp Hrest]; subst.
    rewrite (split_app_sep _ _ _ Hp), IH; [reflexivity | discriminate | exact Hrest].
Qed.

Lemma parse_clean_list (l : list string) :
  Forall (fun x => is_clean x = true) l ->
  flat_map
    (fun interest => if truthy (strip interest) then [strip interest] else [])
    l = l.
Proof.
  induction 1 as [|x l Hx Hl IH]; simpl; [reflexivity|].
  rewrite (strip_clean x Hx), IH.
  apply is_clean_spec in Hx as [Hne _].
  apply truthy_nonempty in Hne. now rewrite Hne.
Qed.

Lemma parse_yields_clean (s x : string) :
  In x (parse_interests s) -> is_clean x = true.
Proof.
  intros Hx.
  destruct (parse_interests_elements s x Hx) as [Hne [piece [Hin ->]]].
  pose proof (strip_trimmed piece) as Htrim.
  apply is_clean_spec. split; [exact Hne|]. split.
  - apply (trimmed_mem _ piece _ Htrim). now apply (split_no_sep _ s).
  - destruct Htrim as [_ [Hf Hl]]. now split.
Qed.

(** X9: a list of clean interests (none empty, none with a comma, none with
    whitespace at an end) written with commas between them is parsed back to
    the same list. *)
Theorem parse_interests_of_join (l : list string) :
  Forall (fun x => is_clean x = true) l ->
  parse_interests (join "," l) = l.
Proof.
  intros Hall. destruct l as [|x l]; [reflexivity|].
  unfold parse_interests. rewrite split_join; [now apply parse_clean_list|discriminate|].
  eapply Forall_impl; [exact Hall|]. simpl.
  intros y Hy. now apply is_clean_spec in Hy as [_ [Hm _]].
Qed.

(** X10: the parsed interests are in normal form: each of them is clean,
    and writing them with commas and parsing again changes nothing. *)
Theorem parse_interests_is_normal (s : string) :
  Forall (fun x => is_clean x = true) (parse_interests s)
  /\ parse_interests (join "," (parse_interests s)) = parse_interests s.
Proof.
  assert (Forall (fun x => is_clean x = true) (parse_interests s)) as Hall.
  { apply List.Forall_forall. intros x Hx. now apply (parse_yields_clean s). }
  split; [exact Hall|].
  destruct (parse_interests s) as [|x l] eqn:Hp; [reflexivity|].
  unfold parse_interests at 1.
  rewrite split_join; [now apply parse_clean_list|discriminate|].
  eapply Forall_impl; [exact Hall|]. simpl.
  intros y Hy. now apply is_clean_spec in Hy as [_ [Hm _]].
Qed.

Lemma rstrip_blank (t : string) : negb (truthy (rstrip t)) = all_space t.
Proof.
  induction t as [|c t IH]; simpl; [reflexivity|].
  destruct (rstrip t) as [|d r]; simpl in IH |- *; rewrite <- IH.
  - destruct (isspace c); reflexivity.
  - now rewrite andb_false_r.
Qed.

Lemma lstrip_blank (s : string) : all_space (lstrip s) = all_space s.
Proof.
  induction s as [|c s IH]; simpl; [reflexivity|].
  destruct (isspace c) eqn:Hc; simpl; [exact IH | now rewrite Hc].
Qed.

Lemma strip_blank (p : string) : negb (truthy (strip p)) = all_space p.
Proof. unfold strip. now rewrite rstrip_blank, lstrip_blank. Qed.

Lemma split_blank (s : string) : forallb all_space (split "," s) = blank s.
Proof.
  induction s as [|c s IH]; simpl; [reflexivity|].
  pose proof (split_nonempty "," s) as Hne.
  destruct (Ascii.eqb c ",") eqn:Hc; simpl.
  - exact IH.
  - destruct (split "," s) as [|p ps]; [contradiction|].
    simpl in IH |- *. rewrite <- IH. now rewrite andb_assoc.
Qed.

Lemma parse_nil_pieces (l : list string) :
  flat_map
    (fun interest => if truthy (strip interest) then [strip interest] else [])
    l = []
  <-> forallb all_space l = true.
Proof.
  induction l as [|p l IH]; simpl; [easy|].
  rewrite <- strip_blank. destruct (truthy (strip p)); simpl.
  - split; discriminate.
  - exact IH.
Qed.

(** X11: the parse yields no interest at all exactly when the input holds
    nothing but commas and whitespace; the empty input is such a one. *)
Theorem parse_interests_empty_iff (s : string) :
  parse_interests s = [] <-> blank s = true.
Proof. unfold parse_interests. now rewrite parse_nil_pieces, split_blank. Qed.

Lemma split_length (sep : ascii) (s : string) :
  length (split sep s) = S (count_char sep s).
Proof.
  induction s as [|c s IH]; simpl; [reflexivity|].
  pose proof (split_nonempty sep s) as Hne.
  destruct (Ascii.eqb c sep); simpl; [now rewrite IH|].
  destruct (split sep s) as [|p ps]; [contradiction | exact IH].
Qed.

(** X12: the parse yields at most one interest more than the input has
    commas. *)
Theorem parse_interests_length (s : string) :
  length (parse_interests s) <= S (count_char "," s).
Proof.
  rewrite <- split_length. unfold parse_interests.
  induction (split "," s) as [|p l IH]; simpl; [lia|].
  destruct (truthy (strip p)); simpl; lia.
Qed.

End InterestsFacts.

(** ** The key the models get *)



(** ** The extras on the scripted backends *)

Lemma critique_failure_aborts_witness :
  @status scripted
    (@run_after scripted 3 (@mkState scripted jane []) script_critique_failure)
  = Running (Feedback draft2)
  /\ fst (@Graph_run_sync scripted 6 (WriteEmail None)
            (@mkState scripted jane []) script_critique_failure)
     = Some (inl (GenerationFailure "timeout"))
  /\ length (@calls scripted
       (snd (@Graph_run_sync scripted 6 (WriteEmail None)
               (@mkState scripted jane []) script_critique_failure))) = 4.
Proof.
  split; [reflexivity|].
  destruct (@critique_failure_aborts scripted (@mkState scripted jane [])
              script_critique_failure [] 3 6 draft2
              (GenerationFailure "timeout")
              eq_refl eq_refl ltac:(lia)) as [Hrun _].
  rewrite Hrun. split; reflexivity.
Defined.

Lemma unsatisfied_critic_never_ends_witness :
  fst (@Graph_run_sync never_satisfied 9 (WriteEmail None)
         (@mkState never_satisfied jane []) 0) = None
  /\ length (@calls never_satisfied
       (snd (@Graph_run_sync never_satisfied 9 (WriteEmail None)
               (@mkState never_satisfied jane []) 0))) = 9.
Proof.
  apply (@unsatisfied_critic_never_ends never_satisfied 9
           (@mkState never_satisfied jane []) 0).
  - intros p b0. eexists. eexists. reflexivity.
  - intros p b0. eexists. eexists. eexists. split; reflexivity.
Defined.




Lemma parse_interests_of_join_witness :
  parse_interests (Str.join "," ["chess"; "gardening"])
  = ["chess"; "gardening"].
Proof.
  apply (InterestsFacts.parse_interests_of_join ["chess"; "gardening"]).
  repeat constructor.
Defined.

(** ** The three-node graph of [example.py] *)

Module ExampleFacts.

Lemma example_iter_finished (fuel : nat) (d : string) (out : list string)
    (nodes : list Example.Node) :
  Example.Graph_iter fuel (Example.mkRun (Example.Finished d) out nodes)
  = Example.mkRun (Example.Finished d) out nodes.
Proof. induction fuel as [|fuel IH]; simpl; [reflexivity | exact IH]. Qed.

Lemma example_iter_add (n m : nat) (r : Example.Run) :
  Example.Graph_iter (n + m) r = Example.Graph_iter m (Example.Graph_iter n r).
Proof. revert r. induction n as [|n IH]; intros r; simpl; [reflexivity | apply IH]. Qed.

(** Unfolds three transitions of the example graph. *)
Ltac three_steps :=
  cbv beta iota zeta delta
    [Example.Graph_iter Example.Graph_next Example.Node_run Example.status
     Example.stdout Example.visited app].

(** The run from [NodeA(n)], for any fuel from three on. *)
Lemma run_from_A (n : Z) (fuel : nat) :
  3 <= fuel ->
  Example.run_sync fuel (Example.NodeA n) =
    if Z.eqb n 1 then
      (Some ("Stop at Node B with value --> " +:+ Example.fmt_int n),
       Example.mkRun
         (Example.Finished ("Stop at Node B with value --> " +:+ Example.fmt_int n))
         ["Calling A"; "Calling B"] [Example.NodeA n; Example.NodeB n])
    else
      (Some ("Stop at Node C with value --> " +:+ Example.fmt_int n),
       Example.mkRun
         (Example.Finished ("Stop at Node C with value --> " +:+ Example.fmt_int n))
         ["Calling A"; "Calling B"; "Calling C"]
         [Example.NodeA n; Example.NodeB n; Example.NodeC n]).
Proof.
  intros Hfuel. replace fuel with (3 + (fuel - 3)) by lia.
  unfold Example.run_sync. rewrite example_iter_add.
  assert (Example.Graph_iter 3
            (Example.mkRun (Example.Running (Example.NodeA n)) [] []) =
    if Z.eqb n 1 then
      Example.mkRun
        (Example.Finished ("Stop at Node B with value --> " +:+ Example.fmt_int n))
        ["Calling A"; "Calling B"] [Example.NodeA n; Example.NodeB n]
    else
      Example.mkRun
        (Example.Finished ("Stop at Node C with value --> " +:+ Example.fmt_int n))
        ["Calling A"; "Calling B"; "Calling C"]
        [Example.NodeA n; Example.NodeB n; Example.NodeC n]) as H3.
  { three_steps. destruct (Z.eqb n 1); reflexivity. }
  rewrite H3. destruct (Z.eqb n 1); rewrite example_iter_finished; reflexivity.
Qed.

Lemma fmt_int_inj (n m : Z) : Example.fmt_int n = Example.fmt_int m -> n = m.
Proof.
  assert (forall z, Z.to_int z <> Decimal.Pos Decimal.Nil
                    /\ Z.to_int z <> Decimal.Neg Decimal.Nil) as Hnil.
  { intros [|p|p]; simpl; split; try discriminate;
      intros [= Hp]; now apply DecimalPos.Unsigned.to_uint_nonnil in Hp. }
  unfold Example.fmt_int. intros Heq. apply DecimalZ.to_int_inj.
  apply (f_equal NilZero.int_of_string) in Heq.
  destruct (Hnil n) as [Hn1 Hn2]. destruct (Hnil m) as [Hm1 Hm2].
  rewrite !NilZero.isi in Heq by assumption. now injection Heq.
Qed.

Lemma app_inv_head (p a b : string) : p +:+ a = p +:+ b -> a = b.
Proof.
  induction p as [|c p IH]; rewrite ?StrFacts.app_cons, ?StrFacts.app_nil_l;
    [easy|].
  intros [= Heq]. now apply IH.
Qed.



(** X16: the result text of a run from [NodeA] tells the track number: two
    runs with the same result were started with the same number. *)
Theorem example_result_tells_track_number (n m : Z) (fuel : nat) :
  3 <= fuel ->
  fst (Example.run_sync fuel (Example.NodeA n))
  = fst (Example.run_sync fuel (Example.NodeA m)) ->
  n = m.
Proof.
  intros Hfuel. rewrite !run_from_A by exact Hfuel.
  destruct (Z.eqb_spec n 1) as [->|Hn], (Z.eqb_spec m 1) as [->|Hm]; simpl.
  - reflexivity.
  - intros Heq. exfalso.
    apply (f_equal (fun o => s ← o; String.get 13 s)) in Heq.
    cbv -[Example.fmt_int] in Heq. discriminate.
  - intros Heq. exfalso.
    apply (f_equal (fun o => s ← o; String.get 13 s)) in Heq.
    cbv -[Example.fmt_int] in Heq. discriminate.
  - intros [= Heq]. apply app_inv_head in Heq. now apply fmt_int_inj.
Qed.

End ExampleFacts.



Lemma example_result_tells_track_number_witness : 12%Z = (10 + 2)%Z.
Proof.
  apply (ExampleFacts.example_result_tells_track_number 12 (10 + 2) 3);
    [lia | reflexivity].
Defined.
